(** * RateLimitRouteHandler: the data behind /ratelimits and /ratelimits/history

    A shallow embedding of [src/helpers/RateLimitRouteHandler.ts].

    - JavaScript numbers that hold limits and counts are integers here ([Z]).
    - A [Date] is its time value, the milliseconds since the epoch ([Z]).
    - [number | undefined] and [Date | null] are [option]; [number | null] of
      the API types is [ApiLimit].
    - The [RateLimitsConfig] object is the list of its own entries in
      insertion order (what [Object.entries] iterates), with distinct keys;
      a property read finds own entries only. The [displayNames] object is
      the finite map of its own entries.
    - The three collaborators built by the constructor (RevenueCatHelper,
      EntitlementHelper, RateLimitChecker) are not part of this file of the
      repository; the handler is parametrised by them.
    - [async] methods are computations over a world: they return or throw and
      leave a trace of the calls they made. *)

From Stdlib Require Import ZArith String Ascii List Lia Sorting.Sorted.
From stdpp Require Import base decidable option list strings gmap sorting.

Local Open Scope Z_scope.

(** ** Types imported by the handler *)

(** [NONE_ENTITLEMENT] of [../types]. *)
Definition NONE_ENTITLEMENT : string := "none".

(** [PeriodType] of [../types]. *)
Inductive PeriodType := HOURLY | DAILY | MONTHLY.

Global Instance PeriodType_eq_dec : EqDecision PeriodType.
Proof. solve_decision. Defined.

(** Internal [RateLimits]: [None] is [undefined], which stands for unlimited. *)
Record RateLimits := mkRateLimits {
  hourly : option Z;
  daily : option Z;
  monthly : option Z
}.

(** [RateLimitsConfig]: entitlement name to limits. *)
Definition RateLimitsConfig := list (string * RateLimits).

(** Property read [config[key]] on the configuration object. *)
Fixpoint config_get (config : RateLimitsConfig) (key : string) : option RateLimits :=
  match config with
  | [] => None
  | (k, v) :: rest => if decide (k = key) then Some v else config_get rest key
  end.

(** A [number | null] of the API types. *)
Inductive ApiLimit := ApiNull | ApiNumber (n : Z).

(** [RateLimits] of [@sudobility/types]. *)
Record ApiRateLimits := mkApiRateLimits {
  api_hourly : ApiLimit;
  api_daily : ApiLimit;
  api_monthly : ApiLimit
}.

Record RateLimitUsage := mkRateLimitUsage {
  usage_hourly : Z;
  usage_daily : Z;
  usage_monthly : Z
}.

Record RateLimitTier := mkRateLimitTier {
  entitlement : string;
  displayName : string;
  limits : ApiRateLimits
}.

Record RateLimitsConfigData := mkRateLimitsConfigData {
  tiers : list RateLimitTier;
  currentEntitlement : string;
  currentLimits : ApiRateLimits;
  currentUsage : RateLimitUsage
}.

Record RateLimitHistoryEntry := mkRateLimitHistoryEntry {
  periodStart : string;
  periodEnd : string;
  requestCount : Z;
  limit : ApiLimit
}.

Record RateLimitHistoryData := mkRateLimitHistoryData {
  periodType : string;
  entries : list RateLimitHistoryEntry;
  totalEntries : nat
}.

(** What the collaborators hand back, as far as the handler reads it. *)
Record SubscriptionInfo := mkSubscriptionInfo {
  entitlements : list string;
  subscriptionStartedAt : option Z
}.

Record RemainingCounts := mkRemainingCounts {
  rem_hourly : option Z;
  rem_daily : option Z;
  rem_monthly : option Z
}.

Record RateLimitCheckResult := mkRateLimitCheckResult {
  allowed : bool;
  remaining : RemainingCounts
}.

Record PeriodHistoryEntry := mkPeriodHistoryEntry {
  period_start : Z;
  period_end : Z;
  request_count : Z
}.

Record HistoryResult := mkHistoryResult {
  history_entries : list PeriodHistoryEntry
}.

(** ** [Date.prototype.toISOString]

    For the time value of a valid [Date]; the rows the checker reads from
    the database carry such dates. *)

(** The last [width] decimal digits of [n], most significant first. *)
Fixpoint digits (width : nat) (n : Z) (acc : string) : string :=
  match width with
  | O => acc
  | S w => digits w (n / 10) (String (ascii_of_nat (48 + Z.to_nat (n mod 10))) acc)
  end.

Definition pad (width : nat) (n : Z) : string := digits width n "".

(** Year, month and day of the proleptic Gregorian calendar from the number
    of days since 1970-01-01. *)
Definition civil_from_days (days : Z) : Z * Z * Z :=
  let z := days + 719468 in
  let era := z / 146097 in
  let doe := z - era * 146097 in
  let yoe := (doe - doe / 1460 + doe / 36524 - doe / 146096) / 365 in
  let doy := doe - (365 * yoe + yoe / 4 - yoe / 100) in
  let mp := (5 * doy + 2) / 153 in
  let d := doy - (153 * mp + 2) / 5 + 1 in
  let m := if mp <? 10 then mp + 3 else mp - 9 in
  let y := yoe + era * 400 + (if m <=? 2 then 1 else 0) in
  (y, m, d).

(** Four digits for the years 0 to 9999, a sign and six digits otherwise. *)
Definition year_string (y : Z) : string :=
  if (0 <=? y) && (y <=? 9999) then pad 4 y
  else if y <? 0 then "-" +:+ pad 6 (- y)
  else "+" +:+ pad 6 y.

Definition toISOString (t : Z) : string :=
  let ms := t mod 86400000 in
  let '(y, m, d) := civil_from_days (t / 86400000) in
  year_string y +:+ "-" +:+ pad 2 m +:+ "-" +:+ pad 2 d +:+ "T" +:+
  pad 2 (ms / 3600000) +:+ ":" +:+ pad 2 (ms / 60000 mod 60) +:+ ":" +:+
  pad 2 (ms / 1000 mod 60) +:+ "." +:+ pad 3 (ms mod 1000) +:+ "Z".

(** ** Computations of the handler *)

(** What a collaborator's promise settles to. *)
Inductive Result (E A : Type) :=
  | Resolved (a : A)
  | Failed (e : E).
Arguments Resolved {E A} a.
Arguments Failed {E A} e.

(** What can be thrown out of the handler: an [Error] it builds itself, or
    the value a collaborator rejected with, passed on as it is. *)
Inductive Thrown (E : Type) :=
  | JsError (message : string)
  | Rejected (e : E).
Arguments JsError {E} message.
Arguments Rejected {E} e.

(** The calls that leave the handler, in the order they are made. *)
Inductive Event (E : Type) :=
  | GetSubscriptionInfoCall (userId : string)
  | CheckOnlyCall (userId : string) (limits : RateLimits) (anchor : option Z)
  | GetHistoryCall (userId : string) (pt : PeriodType) (anchor : option Z) (limit : Z)
  | ConsoleError (text : string) (error : Thrown E).
Arguments GetSubscriptionInfoCall {E} userId.
Arguments CheckOnlyCall {E} userId limits anchor.
Arguments GetHistoryCall {E} userId pt anchor limit.
Arguments ConsoleError {E} text error.

(** The world a call runs in: the state behind the collaborators (billing
    service, database, clock) and the trace of calls so far. *)
Record World (W E : Type) := mkWorld {
  ext : W;
  trace : list (Event E)
}.
Arguments mkWorld {W E} ext trace.
Arguments ext {W E} w.
Arguments trace {W E} w.

Inductive Outcome (E A : Type) :=
  | Returned (a : A)
  | Threw (t : Thrown E).
Arguments Returned {E A} a.
Arguments Threw {E A} t.

(** The collaborators the constructor builds. *)
Record Collaborators (W E : Type) := mkCollaborators {
  (** [rcHelper.getSubscriptionInfo(userId)] *)
  getSubscriptionInfo : string -> W -> Result E SubscriptionInfo * W;
  (** [entitlementHelper.getRateLimits(entitlements)] *)
  getRateLimits : list string -> RateLimits;
  (** [rateLimitChecker.checkOnly(userId, limits, subscriptionStartedAt)] *)
  checkOnly : string -> RateLimits -> option Z -> W -> Result E RateLimitCheckResult * W;
  (** [rateLimitChecker.getHistory(userId, periodType, subscriptionStartedAt, limit)] *)
  getHistory : string -> PeriodType -> option Z -> Z -> W -> Result E HistoryResult * W
}.
Arguments getSubscriptionInfo {W E} c userId w.
Arguments getRateLimits {W E} c entitlements.
Arguments checkOnly {W E} c userId limits anchor w.
Arguments getHistory {W E} c userId pt anchor limit w.

Module Comp.
Section Comp.
Context {W E : Type}.

Definition M (A : Type) : Type := World W E -> Outcome E A * World W E.

Definition ret {A} (a : A) : M A := fun w => (Returned a, w).

Definition throw {A} (t : Thrown E) : M A := fun w => (Threw t, w).

Definition bind {A B} (m : M A) (k : A -> M B) : M B :=
  fun w =>
    match m w with
    | (Returned a, w') => k a w'
    | (Threw t, w') => (Threw t, w')
    end.

(** [try { body } catch (error) { handler }] *)
Definition try_catch {A} (body : M A) (handler : Thrown E -> M A) : M A :=
  fun w =>
    match body w with
    | (Returned a, w') => (Returned a, w')
    | (Threw t, w') => handler t w'
    end.

Definition emit (ev : Event E) : M unit :=
  fun w => (Returned tt, mkWorld (ext w) (trace w ++ [ev])).

(** [await] of a collaborator's promise: the call is recorded, a
    rejection is thrown. *)
Definition await {A} (ev : Event E) (call : W -> Result E A * W) : M A :=
  fun w =>
    let '(r, x) := call (ext w) in
    let w' := mkWorld x (trace w ++ [ev]) in
    match r with
    | Resolved a => (Returned a, w')
    | Failed e => (Threw (Rejected e), w')
    end.

(** [console.error(text, error)] *)
Definition console_error (text : string) (error : Thrown E) : M unit :=
  emit (ConsoleError text error).
End Comp.
End Comp.

Notation "'do' x <- m ; k" := (Comp.bind m (fun x => k))
  (at level 10, x pattern, m at level 100, k at level 200,
   format "'[v' 'do'  x  <-  m ; '/' k ']'").

(** ** The handler *)

(** [RateLimitRouteHandlerConfig], without the parts that only go into the
    collaborators (API key, database, table). *)
Record RateLimitRouteHandlerConfig := mkConfig {
  rateLimitsConfig : RateLimitsConfig;
  entitlementDisplayNames : option (gmap string string)
}.

Definition DEFAULT_DISPLAY_NAMES : gmap string string :=
  <["none" := "Free"%string]> (<["starter" := "Starter"%string]>
   (<["pro" := "Pro"%string]> (<["enterprise" := "Enterprise"%string]> ∅))).

(** [{ ...DEFAULT_DISPLAY_NAMES, ...config.entitlementDisplayNames }]: the
    configured names override the defaults. *)
Definition displayNames (config : RateLimitRouteHandlerConfig) : gmap string string :=
  default ∅ (entitlementDisplayNames config) ∪ DEFAULT_DISPLAY_NAMES.

(** [toUpperCase] on one ASCII character. *)
Definition toUpperCase (c : ascii) : ascii :=
  let n := nat_of_ascii c in
  if ((97 <=? n)%nat && (n <=? 122)%nat)%bool then ascii_of_nat (n - 32) else c.

(** [s.charAt(0).toUpperCase() + s.slice(1)] *)
Definition capitalize (s : string) : string :=
  match s with
  | EmptyString => EmptyString
  | String c rest => String (toUpperCase c) rest
  end.

Definition getDisplayName (config : RateLimitRouteHandlerConfig) (entitlement : string) : string :=
  match displayNames config !! entitlement with
  | Some name => if decide (name = ""%string) then capitalize entitlement else name
  | None => capitalize entitlement
  end.

(** [v ?? null] *)
Definition orNull (v : option Z) : ApiLimit :=
  match v with
  | Some n => ApiNumber n
  | None => ApiNull
  end.

Definition convertLimits (limits : RateLimits) : ApiRateLimits :=
  {| api_hourly := orNull (hourly limits);
     api_daily := orNull (daily limits);
     api_monthly := orNull (monthly limits) |}.

(** The loop of [getPrimaryEntitlement]; an entry of the configuration is an
    object, hence truthy. *)
Fixpoint getPrimaryEntitlement (config : RateLimitsConfig) (entitlements : list string) : string :=
  match entitlements with
  | [] => NONE_ENTITLEMENT
  | entitlement :: rest =>
      if bool_decide (entitlement ≠ NONE_ENTITLEMENT) && bool_decide (is_Some (config_get config entitlement))
      then entitlement
      else getPrimaryEntitlement config rest
  end.

Definition getLimitForPeriod (limits : RateLimits) (periodType : string) : ApiLimit :=
  if decide (periodType = "hour"%string) then orNull (hourly limits)
  else if decide (periodType = "day"%string) then orNull (daily limits)
  else if decide (periodType = "month"%string) then orNull (monthly limits)
  else ApiNull.

(** [v ?? 0] *)
Definition orZero (v : option Z) : Z := default 0 v.

(** One field of [currentUsage]. *)
Definition usage (limit remaining : option Z) : Z :=
  match limit with
  | Some n => n - orZero remaining
  | None => 0
  end.

Section Handler.
Context {W E : Type}.
Variable collaborators : Collaborators W E.
Variable config : RateLimitRouteHandlerConfig.

Definition convertPeriodType (periodType : string) : Comp.M (W:=W) (E:=E) PeriodType :=
  if decide (periodType = "hour"%string) then Comp.ret HOURLY
  else if decide (periodType = "day"%string) then Comp.ret DAILY
  else if decide (periodType = "month"%string) then Comp.ret MONTHLY
  else Comp.throw (JsError ("Invalid period type: " +:+ periodType)).

Definition getRateLimitsConfigData (userId : string) : Comp.M (W:=W) (E:=E) RateLimitsConfigData :=
  let tiers :=
    map (fun '(entitlement, limits) =>
           {| entitlement := entitlement;
              displayName := getDisplayName config entitlement;
              limits := convertLimits limits |})
        (rateLimitsConfig config) in
  do (entitlements, subscriptionStartedAt) <-
    Comp.try_catch
      (do subscriptionInfo <- Comp.await (GetSubscriptionInfoCall userId)
                                (getSubscriptionInfo collaborators userId);
       Comp.ret (entitlements subscriptionInfo, subscriptionStartedAt subscriptionInfo))
      (fun error =>
         do _ <- Comp.console_error "RevenueCat error, using 'none' entitlement:" error;
         Comp.ret ([NONE_ENTITLEMENT], None));
  let currentEntitlement := getPrimaryEntitlement (rateLimitsConfig config) entitlements in
  let internalLimits := getRateLimits collaborators entitlements in
  let currentLimits := convertLimits internalLimits in
  do checkResult <- Comp.await (CheckOnlyCall userId internalLimits subscriptionStartedAt)
                      (checkOnly collaborators userId internalLimits subscriptionStartedAt);
  let currentUsage :=
    {| usage_hourly := usage (hourly internalLimits) (rem_hourly (remaining checkResult));
       usage_daily := usage (daily internalLimits) (rem_daily (remaining checkResult));
       usage_monthly := usage (monthly internalLimits) (rem_monthly (remaining checkResult)) |} in
  Comp.ret {| tiers := tiers;
              currentEntitlement := currentEntitlement;
              currentLimits := currentLimits;
              currentUsage := currentUsage |}.

Definition getRateLimitHistoryData (userId : string) (periodType : string) (limit : option Z)
  : Comp.M (W:=W) (E:=E) RateLimitHistoryData :=
  let limit := default 100 limit in
  do internalPeriodType <- convertPeriodType periodType;
  do (subscriptionStartedAt, entitlements) <-
    Comp.try_catch
      (do subscriptionInfo <- Comp.await (GetSubscriptionInfoCall userId)
                                (getSubscriptionInfo collaborators userId);
       Comp.ret (subscriptionStartedAt subscriptionInfo, entitlements subscriptionInfo))
      (fun error =>
         do _ <- Comp.console_error "RevenueCat error:" error;
         Comp.ret (None, [NONE_ENTITLEMENT]));
  let internalLimits := getRateLimits collaborators entitlements in
  let periodLimit := getLimitForPeriod internalLimits periodType in
  do history <- Comp.await (GetHistoryCall userId internalPeriodType subscriptionStartedAt limit)
                  (getHistory collaborators userId internalPeriodType subscriptionStartedAt limit);
  let entries :=
    map (fun entry =>
           {| periodStart := toISOString (period_start entry);
              periodEnd := toISOString (period_end entry);
              requestCount := request_count entry;
              limit := periodLimit |})
        (history_entries history) in
  Comp.ret {| periodType := periodType;
              entries := entries;
              totalEntries := length entries |}.
End Handler.

(** ** The quota resolver behind [entitlementHelper.getRateLimits] *)

Module QuotaResolver.

(** Modelled from the spec: the merge of two limits of one period of
    [EntitlementHelper], which is not among the sources. Unbounded beats
    any finite number; among finite numbers the maximum wins. *)
Definition merge_limit (a b : option Z) : option Z :=
  match a, b with
  | Some x, Some y => Some (Z.max x y)
  | _, _ => None
  end.

(** Modelled from the spec: the merge of two tiers of [EntitlementHelper],
    each period independently. *)
Definition merge (a b : RateLimits) : RateLimits :=
  {| hourly := merge_limit (hourly a) (hourly b);
     daily := merge_limit (daily a) (daily b);
     monthly := merge_limit (monthly a) (monthly b) |}.

(** Modelled from the spec: the limits of the tags of [EntitlementHelper]
    that exist in the configuration; the other tags are ignored. *)
Definition gather (tags : list string) (config : RateLimitsConfig) : list RateLimits :=
  omap (config_get config) tags.

(** Modelled from the spec: the merge of all gathered tiers of
    [EntitlementHelper]; nothing when no tier was gathered. *)
Definition merge_all (gathered : list RateLimits) : option RateLimits :=
  foldr (fun l acc => Some (match acc with
                            | Some m => merge l m
                            | None => l
                            end)) None gathered.

(** Modelled from the spec: [resolve(tags, config)], the
    [EntitlementHelper.getRateLimits] that is not among the sources. When
    no supplied tag is configured it falls back to [config["none"]]; the
    result is [None] only for a configuration that lacks the mandatory
    "none" tier. *)
Definition resolve (tags : list string) (config : RateLimitsConfig) : option RateLimits :=
  match merge_all (gather tags config) with
  | Some l => Some l
  | None => config_get config NONE_ENTITLEMENT
  end.

(** What "most permissive wins" asks of the merged value [r] of one period,
    given the values [vals] of that period in the applicable tiers. *)
Definition most_permissive (vals : list (option Z)) (r : option Z) : Prop :=
  (None ∈ vals → r = None) ∧
  (None ∉ vals → ∃ m, r = Some m ∧ Some m ∈ vals ∧ ∀ n, Some n ∈ vals → n <= m).

End QuotaResolver.

(** ** The counter store behind [rateLimitChecker.getHistory] *)

Module CounterStore.

(** Modelled from the spec: the CounterRecord rows of the
    [rate_limit_counters] table, whose schema is not among the sources. *)
Record CounterRecord := mkCounterRecord {
  row_userId : string;
  row_periodType : PeriodType;
  row_periodStart : Z;
  row_requestCount : Z;
  row_createdAt : Z;
  row_updatedAt : Z
}.

(** Modelled from the spec: the table, a collection of rows. *)
Definition Table := list CounterRecord.

(** Modelled from the spec: the key triple of a row. *)
Definition key (r : CounterRecord) : string * PeriodType * Z :=
  (row_userId r, row_periodType r, row_periodStart r).

(** Modelled from the spec: the uniqueness constraint of the table, at most
    one row per user, period type and window start. *)
Definition unique_keys (t : Table) : Prop := NoDup (key <$> t).

(** Modelled from the spec: the descending order of the list query; [a] may
    be listed before [b] when its window does not start earlier. *)
Definition not_earlier (a b : CounterRecord) : Prop :=
  row_periodStart b <= row_periodStart a.

Global Instance not_earlier_dec a b : Decision (not_earlier a b).
Proof. unfold not_earlier. apply _. Defined.

(** Modelled from the spec: the rows the list query selects. *)
Definition of_user (userId : string) (pt : PeriodType) (r : CounterRecord) : Prop :=
  row_userId r = userId ∧ row_periodType r = pt.

Global Instance of_user_dec userId pt r : Decision (of_user userId pt r).
Proof. unfold of_user. apply _. Defined.

(** Modelled from the spec: the list query of [RateLimitChecker.getHistory],
    which is not among the sources: the rows of the user and period type,
    ordered by window start descending, capped at [limit] rows. *)
Definition history_rows (userId : string) (pt : PeriodType) (limit : Z) (t : Table)
  : list CounterRecord :=
  take (Z.to_nat limit) (merge_sort not_earlier (filter (of_user userId pt) t)).

Section History.
(** The exclusive end of the window that starts at a row's
    [periodStart], from the time-window calculator (not among the
    sources): period type, subscription anchor, window start. *)
Variable windowEnd : PeriodType -> option Z -> Z -> Z.

(** Modelled from the spec: a history entry of
    [RateLimitChecker.getHistory] for one stored row. *)
Definition history_entry (pt : PeriodType) (anchor : option Z) (r : CounterRecord)
  : PeriodHistoryEntry :=
  {| period_start := row_periodStart r;
     period_end := windowEnd pt anchor (row_periodStart r);
     request_count := row_requestCount r |}.

(** Modelled from the spec: [RateLimitChecker.getHistory], which is not
    among the sources; it reads the table and leaves it as it is. *)
Definition getHistory {E : Type} (userId : string) (pt : PeriodType) (anchor : option Z)
    (limit : Z) (t : Table) : Result E HistoryResult * Table :=
  (Resolved {| history_entries := history_entry pt anchor <$> history_rows userId pt limit t |}, t).

End History.

(** Strictly decreasing by [periodStart]. *)
Definition strictly_decreasing (rows : list CounterRecord) : Prop :=
  ∀ i j a b, (i < j)%nat → rows !! i = Some a → rows !! j = Some b →
             row_periodStart b < row_periodStart a.

End CounterStore.

(** The handler's collaborators over a world that is the counter table: the
    entitlement source [rc], the resolver and [checkOnly] are arbitrary, the
    history comes from the table. *)
Definition over_table {E : Type} (windowEnd : PeriodType -> option Z -> Z -> Z)
    (rc : string -> Result E SubscriptionInfo)
    (resolver : list string -> RateLimits)
    (check : string -> RateLimits -> option Z ->
             CounterStore.Table -> Result E RateLimitCheckResult * CounterStore.Table)
  : Collaborators CounterStore.Table E :=
  {| getSubscriptionInfo := fun userId t => (rc userId, t);
     getRateLimits := resolver;
     checkOnly := check;
     getHistory := CounterStore.getHistory windowEnd |}.

(** ** Concrete data for the examples *)

Module Examples.

Definition unlimited : RateLimits :=
  {| hourly := None; daily := None; monthly := None |}.

(** The configuration of the spec's scenario. *)
Definition tiers_config : RateLimitsConfig :=
  [ ("none"%string, {| hourly := Some 5; daily := Some 20; monthly := Some 100 |});
    ("starter"%string, {| hourly := Some 10; daily := Some 50; monthly := Some 500 |});
    ("pro"%string, unlimited) ].

Definition handler_config : RateLimitRouteHandlerConfig :=
  {| rateLimitsConfig := tiers_config; entitlementDisplayNames := None |}.

Definition resolver (tags : list string) : RateLimits :=
  default unlimited (QuotaResolver.resolve tags tiers_config).

(** A checker that finds [used] requests in every window. *)
Definition check_used {W} (used : Z) (userId : string) (limits : RateLimits)
    (anchor : option Z) (w : W) : Result string RateLimitCheckResult * W :=
  let left := fun l : option Z => (fun n => n - used) <$> l in
  (Resolved {| allowed := true;
               remaining := {| rem_hourly := left (hourly limits);
                               rem_daily := left (daily limits);
                               rem_monthly := left (monthly limits) |} |}, w).

Definition no_history {W} (userId : string) (pt : PeriodType) (anchor : option Z)
    (limit : Z) (w : W) : Result string HistoryResult * W :=
  (Resolved {| history_entries := [] |}, w).

Definition server_error : string := "RevenueCat API error: 500 Internal Server Error".

(** The billing service answers every request with a server error. *)
Definition source_down : Collaborators unit string :=
  {| getSubscriptionInfo := fun _ w => (Failed server_error, w);
     getRateLimits := resolver;
     checkOnly := check_used 2;
     getHistory := no_history |}.

(** The billing service knows the user's entitlements [tags]. *)
Definition subscribed (tags : list string) : Collaborators unit string :=
  {| getSubscriptionInfo := fun _ w =>
       (Resolved {| entitlements := tags; subscriptionStartedAt := Some 1704067200000 |}, w);
     getRateLimits := resolver;
     checkOnly := check_used 2;
     getHistory := no_history |}.

Definition database_error : string := "connection refused".

(** The database is down. *)
Definition storage_down : Collaborators unit string :=
  {| getSubscriptionInfo := fun _ w =>
       (Resolved {| entitlements := ["starter"%string]; subscriptionStartedAt := None |}, w);
     getRateLimits := resolver;
     checkOnly := fun _ _ _ w => (Failed database_error, w);
     getHistory := fun _ _ _ _ w => (Failed database_error, w) |}.

Definition start : World unit string := mkWorld tt [].

Definition hour_ms : Z := 3600000.

(** Window ends of the hourly and daily periods; the monthly one is only a
    stand-in of thirty days. *)
Definition windowEnd (pt : PeriodType) (anchor : option Z) (start : Z) : Z :=
  match pt with
  | HOURLY => start + hour_ms
  | DAILY => start + 24 * hour_ms
  | MONTHLY => start + 30 * 24 * hour_ms
  end.

Definition row (userId : string) (pt : PeriodType) (start count : Z) : CounterStore.CounterRecord :=
  {| CounterStore.row_userId := userId;
     CounterStore.row_periodType := pt;
     CounterStore.row_periodStart := start;
     CounterStore.row_requestCount := count;
     CounterStore.row_createdAt := start;
     CounterStore.row_updatedAt := start |}.

(** Three hourly windows of one user (with a gap), one daily window, and a
    window of another user. *)
Definition table : CounterStore.Table :=
  [ row "u1" HOURLY 1704067200000 3;
    row "u1" HOURLY 1704078000000 1;
    row "u2" HOURLY 1704070800000 7;
    row "u1" DAILY 1704067200000 4;
    row "u1" HOURLY 1704070800000 0 ].

Definition table_world : World CounterStore.Table string := mkWorld table [].

Definition with_table : Collaborators CounterStore.Table string :=
  over_table windowEnd (fun _ => Failed server_error) resolver (check_used 0).

End Examples.

(** ** Vocabulary of the properties *)

(** What the handlers keep of the entitlement source's answer: the answer
    itself, or the "none" entitlement and no anchor after a failure. *)
Definition kept_entitlements {E} (r : Result E SubscriptionInfo) : list string :=
  match r with
  | Resolved info => entitlements info
  | Failed _ => [NONE_ENTITLEMENT]
  end.

Definition kept_anchor {E} (r : Result E SubscriptionInfo) : option Z :=
  match r with
  | Resolved info => subscriptionStartedAt info
  | Failed _ => None
  end.

(** The [console.error] line of a failed entitlement lookup. *)
Definition logged {E} (text : string) (r : Result E SubscriptionInfo) : list (Event E) :=
  match r with
  | Resolved _ => []
  | Failed e => [ConsoleError text (Rejected e)]
  end.

(** The period types of the API and the internal ones they name. *)
Inductive names : string -> PeriodType -> Prop :=
  | names_hour : names "hour" HOURLY
  | names_day : names "day" DAILY
  | names_month : names "month" MONTHLY.

(** The limit of one period of a triple. *)
Definition limit_of (pt : PeriodType) (limits : RateLimits) : option Z :=
  match pt with
  | HOURLY => hourly limits
  | DAILY => daily limits
  | MONTHLY => monthly limits
  end.

(** The limit of one period of an API triple. *)
Definition api_limit_of (pt : PeriodType) (limits : ApiRateLimits) : ApiLimit :=
  match pt with
  | HOURLY => api_hourly limits
  | DAILY => api_daily limits
  | MONTHLY => api_monthly limits
  end.

(** How the API reports an internal limit: unbounded as null, a finite limit
    as itself. *)
Inductive reported : option Z -> ApiLimit -> Prop :=
  | reported_unbounded : reported None ApiNull
  | reported_finite n : reported (Some n) (ApiNumber n).

(** The calls of a trace that reach durable storage. *)
Definition is_storage_call {E} (ev : Event E) : bool :=
  match ev with
  | CheckOnlyCall _ _ _ | GetHistoryCall _ _ _ _ => true
  | _ => false
  end.

Definition storage_calls {E} (tr : list (Event E)) : nat :=
  length (filter (fun ev => is_storage_call ev = true) tr).

(** A tag that can be the primary entitlement: not "none", and configured. *)
Definition eligible (config : RateLimitsConfig) (tag : string) : Prop :=
  tag ≠ NONE_ENTITLEMENT ∧ is_Some (config_get config tag).


(** One field of the reported usage against its limit and remaining count. *)
Definition usage_of (limit remaining : option Z) (used : Z) : Prop :=
  match limit with
  | Some n => (∀ r, remaining = Some r → used = n - r) ∧ (remaining = None → used = n)
  | None => used = 0
  end.

(** One period of the reported usage and of the remaining counts. *)
Definition usage_at (pt : PeriodType) (u : RateLimitUsage) : Z :=
  match pt with
  | HOURLY => usage_hourly u
  | DAILY => usage_daily u
  | MONTHLY => usage_monthly u
  end.

Definition remaining_at (pt : PeriodType) (r : RemainingCounts) : option Z :=
  match pt with
  | HOURLY => rem_hourly r
  | DAILY => rem_daily r
  | MONTHLY => rem_monthly r
  end.

Global Instance eligible_dec config tag : Decision (eligible config tag).
Proof. unfold eligible. apply _. Defined.

(** A configuration with display names of its own. *)
Definition named_config (custom : gmap string string) : RateLimitRouteHandlerConfig :=
  {| rateLimitsConfig := Examples.tiers_config; entitlementDisplayNames := Some custom |}.

(** The collaborators [c], but with an entitlement source that finds no
    subscription: it answers with the "none" entitlement and no start date,
    and leaves the state as the source of [c] does. *)
Definition without_subscription {W E} (c : Collaborators W E) : Collaborators W E :=
  {| getSubscriptionInfo := fun userId x =>
       (Resolved {| entitlements := [NONE_ENTITLEMENT]; subscriptionStartedAt := None |},
        snd (getSubscriptionInfo c userId x));
     getRateLimits := getRateLimits c;
     checkOnly := checkOnly c;
     getHistory := getHistory c |}.

(** * Properties *)

(** ** Small checks of the helpers *)

Example toISOString_epoch : toISOString 0 = "1970-01-01T00:00:00.000Z"%string.
Proof. reflexivity. Qed.

Example toISOString_leap_day :
  toISOString 1709251199999 = "2024-02-29T23:59:59.999Z"%string.
Proof. reflexivity. Qed.

Example toISOString_before_epoch : toISOString (-1) = "1969-12-31T23:59:59.999Z"%string.
Proof. reflexivity. Qed.

Example getDisplayName_default :
  getDisplayName Examples.handler_config "none" = "Free"%string.
Proof. reflexivity. Qed.

Example getDisplayName_capitalized :
  getDisplayName Examples.handler_config "team" = "Team"%string.
Proof. reflexivity. Qed.

(** ** Running the handlers *)

Ltac run := unfold Comp.bind, Comp.try_catch, Comp.await, Comp.console_error,
                   Comp.emit, Comp.ret, Comp.throw; simpl.

Lemma convertPeriodType_names {W E} periodType pt (w : World W E) :
  names periodType pt → convertPeriodType periodType w = (Returned pt, w).
Proof. intros []; reflexivity. Qed.

Lemma convertPeriodType_invalid {W E} periodType (w : World W E) :
  periodType ≠ "hour"%string → periodType ≠ "day"%string → periodType ≠ "month"%string →
  convertPeriodType periodType w = (Threw (JsError ("Invalid period type: " +:+ periodType)), w).
Proof.
  intros Hh Hd Hm. unfold convertPeriodType.
  repeat (case_decide; [congruence|]). reflexivity.
Qed.

Lemma getLimitForPeriod_names periodType pt limits :
  names periodType pt → getLimitForPeriod limits periodType = orNull (limit_of pt limits).
Proof. intros []; reflexivity. Qed.

(** The whole run of [getRateLimitsConfigData] in terms of what the
    collaborators answer. *)
Lemma getRateLimitsConfigData_run {W E} (c : Collaborators W E) cfg userId w :
  getRateLimitsConfigData c cfg userId w =
  let '(r1, x1) := getSubscriptionInfo c userId (ext w) in
  let limits := getRateLimits c (kept_entitlements r1) in
  let tr1 := (trace w ++ [GetSubscriptionInfoCall userId]) ++
             logged "RevenueCat error, using 'none' entitlement:" r1 in
  let '(r2, x2) := checkOnly c userId limits (kept_anchor r1) x1 in
  let w2 := mkWorld x2 (tr1 ++ [CheckOnlyCall userId limits (kept_anchor r1)]) in
  match r2 with
  | Resolved checkResult =>
      (Returned
         {| tiers := map (fun '(entitlement, limits) =>
                            {| entitlement := entitlement;
                               displayName := getDisplayName cfg entitlement;
                               limits := convertLimits limits |})
                         (rateLimitsConfig cfg);
            currentEntitlement :=
              getPrimaryEntitlement (rateLimitsConfig cfg) (kept_entitlements r1);
            currentLimits := convertLimits limits;
            currentUsage :=
              {| usage_hourly := usage (hourly limits) (rem_hourly (remaining checkResult));
                 usage_daily := usage (daily limits) (rem_daily (remaining checkResult));
                 usage_monthly := usage (monthly limits) (rem_monthly (remaining checkResult)) |} |},
       w2)
  | Failed e => (Threw (Rejected e), w2)
  end.
Proof.
  unfold getRateLimitsConfigData. run.
  destruct (getSubscriptionInfo c userId (ext w)) as [[info|e] x1]; simpl.
  - rewrite app_nil_r.
    destruct (checkOnly c userId _ _ x1) as [[cr|e2] x2]; reflexivity.
  - destruct (checkOnly c userId _ _ x1) as [[cr|e2] x2]; reflexivity.
Qed.

(** The whole run of [getRateLimitHistoryData] for a period type the API
    knows. *)
Lemma getRateLimitHistoryData_run {W E} (c : Collaborators W E) userId periodType pt limit w :
  names periodType pt →
  getRateLimitHistoryData c userId periodType limit w =
  let '(r1, x1) := getSubscriptionInfo c userId (ext w) in
  let limits := getRateLimits c (kept_entitlements r1) in
  let tr1 := (trace w ++ [GetSubscriptionInfoCall userId]) ++ logged "RevenueCat error:" r1 in
  let '(r2, x2) := getHistory c userId pt (kept_anchor r1) (default 100 limit) x1 in
  let w2 := mkWorld x2 (tr1 ++ [GetHistoryCall userId pt (kept_anchor r1) (default 100 limit)]) in
  match r2 with
  | Resolved history =>
      (Returned
         {| periodType := periodType;
            entries := map (fun entry =>
                              {| periodStart := toISOString (period_start entry);
                                 periodEnd := toISOString (period_end entry);
                                 requestCount := request_count entry;
                                 limit := getLimitForPeriod limits periodType |})
                           (history_entries history);
            totalEntries := length (history_entries history) |},
       w2)
  | Failed e => (Threw (Rejected e), w2)
  end.
Proof.
  intros Hn. unfold getRateLimitHistoryData.
  unfold Comp.bind at 1. rewrite (convertPeriodType_names _ _ _ Hn). run.
  destruct (getSubscriptionInfo c userId (ext w)) as [[info|e] x1]; simpl.
  - rewrite app_nil_r.
    destruct (getHistory c userId pt _ _ x1) as [[h|e2] x2]; simpl;
      rewrite ?length_map; reflexivity.
  - destruct (getHistory c userId pt _ _ x1) as [[h|e2] x2]; simpl;
      rewrite ?length_map; reflexivity.
Qed.

Lemma storage_calls_app {E} (tr1 tr2 : list (Event E)) :
  storage_calls (tr1 ++ tr2) = (storage_calls tr1 + storage_calls tr2)%nat.
Proof. unfold storage_calls. rewrite filter_app, length_app. reflexivity. Qed.

Lemma storage_calls_logged {E} text (r : Result E SubscriptionInfo) :
  storage_calls (logged text r) = 0%nat.
Proof. destruct r; reflexivity. Qed.

(** ** Failures of the entitlement source *)

(** C1, as the code has it: when [getSubscriptionInfo] fails with any error
    [e], both handlers catch it, write it to [console.error] and go on with
    the entitlements [["none"]] and no subscription anchor. The failure is
    not passed on: the call returns the data of the "none" tier when the
    storage call succeeds, and the only error it can throw is the one of the
    storage call. *)
Theorem source_failure_falls_back_to_none {W E} (c : Collaborators W E) cfg userId w e x1 :
  getSubscriptionInfo c userId (ext w) = (Failed e, x1) →
  let limits := getRateLimits c [NONE_ENTITLEMENT] in
  (let out := getRateLimitsConfigData c cfg userId w in
   ConsoleError "RevenueCat error, using 'none' entitlement:" (Rejected e) ∈ trace (snd out) ∧
   match checkOnly c userId limits None x1 with
   | (Resolved _, _) =>
       ∃ data, fst out = Returned data ∧
               currentEntitlement data = NONE_ENTITLEMENT ∧
               currentLimits data = convertLimits limits
   | (Failed e', _) => fst out = Threw (Rejected e')
   end) ∧
  (∀ periodType pt cap, names periodType pt →
   let out := getRateLimitHistoryData c userId periodType cap w in
   ConsoleError "RevenueCat error:" (Rejected e) ∈ trace (snd out) ∧
   match getHistory c userId pt None (default 100 cap) x1 with
   | (Resolved _, _) =>
       ∃ data, fst out = Returned data ∧
               Forall (fun entry => limit entry = orNull (limit_of pt limits)) (entries data)
   | (Failed e', _) => fst out = Threw (Rejected e')
   end).
Proof.
  intros Hsrc limits. split.
  - intros out. subst out. rewrite getRateLimitsConfigData_run, Hsrc. simpl.
    fold limits.
    destruct (checkOnly c userId limits None x1) as [[cr|e'] x2]; simpl.
    + split; [set_solver|]. eexists. split; [reflexivity|]. split; reflexivity.
    + split; [set_solver|reflexivity].
  - intros periodType pt lim Hn out. subst out.
    rewrite (getRateLimitHistoryData_run _ _ _ _ _ _ Hn), Hsrc. simpl. fold limits.
    destruct (getHistory c userId pt None (default 100 lim) x1) as [[h|e'] x2]; simpl.
    + split; [set_solver|]. eexists. split; [reflexivity|]. simpl.
      rewrite Forall_forall. intros entry Hin.
      apply list_elem_of_In, in_map_iff in Hin as (stored & <- & _). simpl.
      apply getLimitForPeriod_names, Hn.
    + split; [set_solver|reflexivity].
Qed.

Lemma source_failure_falls_back_to_none_witness :
  getSubscriptionInfo Examples.source_down "u1" (ext Examples.start)
    = (Failed Examples.server_error, tt) ∧
  ∃ data,
    fst (getRateLimitsConfigData Examples.source_down Examples.handler_config "u1" Examples.start)
      = Returned data ∧
    currentEntitlement data = NONE_ENTITLEMENT ∧
    currentLimits data = convertLimits (Examples.resolver [NONE_ENTITLEMENT]).
Proof.
  split; [reflexivity|].
  exact (proj2 (proj1 (source_failure_falls_back_to_none
                         Examples.source_down Examples.handler_config "u1" Examples.start
                         Examples.server_error tt eq_refl))).
Defined.

(** C1, as the spec has it, fails: with a billing service that answers with
    a server error (not a not-found response), neither handler throws that
    error; both return data computed for the "none" tier. *)
Lemma source_failure_is_not_propagated :
  getSubscriptionInfo Examples.source_down "u1" (ext Examples.start)
    = (Failed Examples.server_error, tt) ∧
  fst (getRateLimitsConfigData Examples.source_down Examples.handler_config "u1" Examples.start)
    ≠ Threw (Rejected Examples.server_error) ∧
  (∃ data,
     fst (getRateLimitsConfigData Examples.source_down Examples.handler_config "u1" Examples.start)
       = Returned data ∧ currentEntitlement data = "none"%string) ∧
  fst (getRateLimitHistoryData Examples.source_down "u1" "hour" None Examples.start)
    ≠ Threw (Rejected Examples.server_error) ∧
  (∃ data,
     fst (getRateLimitHistoryData Examples.source_down "u1" "hour" None Examples.start)
       = Returned data).
Proof.
  split; [reflexivity|].
  split; [vm_compute; discriminate|].
  split; [eexists; split; vm_compute; reflexivity|].
  split; [vm_compute; discriminate|].
  eexists; vm_compute; reflexivity.
Qed.

(** ** Invalid period types *)

(** C3: for a period type other than "hour", "day" and "month",
    [getRateLimitHistoryData] throws the error of [convertPeriodType],
    "Invalid period type: ...", and leaves the world as it found it: neither
    the entitlement source nor the storage has been called. The error is the
    handler's own, not one a collaborator rejected with. *)
Theorem invalid_period_type_is_rejected_first {W E} (c : Collaborators W E)
    userId periodType cap (w : World W E) :
  periodType ≠ "hour"%string → periodType ≠ "day"%string → periodType ≠ "month"%string →
  getRateLimitHistoryData c userId periodType cap w
    = (Threw (JsError ("Invalid period type: " +:+ periodType)), w) ∧
  (∀ e, fst (getRateLimitHistoryData c userId periodType cap w) ≠ Threw (Rejected e)).
Proof.
  intros Hh Hd Hm.
  assert (Hrun : getRateLimitHistoryData c userId periodType cap w
                 = (Threw (JsError ("Invalid period type: " +:+ periodType)), w)).
  { unfold getRateLimitHistoryData. unfold Comp.bind at 1.
    rewrite convertPeriodType_invalid by assumption. reflexivity. }
  split; [exact Hrun|]. intros e. rewrite Hrun. discriminate.
Qed.

Lemma invalid_period_type_is_rejected_first_witness :
  getRateLimitHistoryData Examples.with_table "u1" "week" (Some 2) Examples.table_world
    = (Threw (JsError "Invalid period type: week"), Examples.table_world).
Proof.
  exact (proj1 (invalid_period_type_is_rejected_first
                  Examples.with_table "u1" "week" (Some 2) Examples.table_world
                  ltac:(discriminate) ltac:(discriminate) ltac:(discriminate))).
Defined.

(** ** Failures of the storage *)

(** C4: when the storage call of a handler ([checkOnly], or [getHistory]
    for a period type the API knows) fails with [e], the handler throws
    that same [e]; it returns no data in its place, and it has made exactly
    one storage call. *)
Theorem storage_failure_propagates_unchanged {W E} (c : Collaborators W E) cfg userId w r1 x1 :
  getSubscriptionInfo c userId (ext w) = (r1, x1) →
  let limits := getRateLimits c (kept_entitlements r1) in
  (∀ e x2, checkOnly c userId limits (kept_anchor r1) x1 = (Failed e, x2) →
     let out := getRateLimitsConfigData c cfg userId w in
     fst out = Threw (Rejected e) ∧ ext (snd out) = x2 ∧
     storage_calls (trace (snd out)) = S (storage_calls (trace w))) ∧
  (∀ periodType pt cap e x2, names periodType pt →
     getHistory c userId pt (kept_anchor r1) (default 100 cap) x1 = (Failed e, x2) →
     let out := getRateLimitHistoryData c userId periodType cap w in
     fst out = Threw (Rejected e) ∧ ext (snd out) = x2 ∧
     storage_calls (trace (snd out)) = S (storage_calls (trace w))).
Proof.
  intros Hsrc limits. split.
  - intros e x2 Hfail out. subst out.
    rewrite getRateLimitsConfigData_run, Hsrc. simpl. fold limits. rewrite Hfail. simpl.
    split; [reflexivity|]. split; [reflexivity|].
    rewrite !storage_calls_app, storage_calls_logged. simpl. unfold storage_calls. simpl. lia.
  - intros periodType pt cap e x2 Hn Hfail out. subst out.
    rewrite (getRateLimitHistoryData_run _ _ _ _ _ _ Hn), Hsrc. simpl. rewrite Hfail. simpl.
    split; [reflexivity|]. split; [reflexivity|].
    rewrite !storage_calls_app, storage_calls_logged. simpl. unfold storage_calls. simpl. lia.
Qed.

Lemma storage_failure_propagates_unchanged_witness :
  fst (getRateLimitsConfigData Examples.storage_down Examples.handler_config "u1" Examples.start)
    = Threw (Rejected Examples.database_error) ∧
  fst (getRateLimitHistoryData Examples.storage_down "u1" "day" None Examples.start)
    = Threw (Rejected Examples.database_error).
Proof.
  pose proof (storage_failure_propagates_unchanged
                Examples.storage_down Examples.handler_config "u1" Examples.start
                _ _ eq_refl) as [Hcheck Hhistory].
  split.
  - exact (proj1 (Hcheck Examples.database_error tt eq_refl)).
  - exact (proj1 (Hhistory "day"%string DAILY None Examples.database_error tt
                    names_day eq_refl)).
Defined.

(** ** Unbounded limits in the API *)

(** C5: [convertLimits] and, for the period types of the API,
    [getLimitForPeriod] report each period's limit as follows: an unbounded
    limit as null, a finite limit [n] as [n]. An unbounded limit is never
    reported as a number, 0 included. *)
Theorem unbounded_is_reported_as_null (limits : RateLimits) :
  (∀ pt, reported (limit_of pt limits) (api_limit_of pt (convertLimits limits))) ∧
  (∀ periodType pt, names periodType pt →
     reported (limit_of pt limits) (getLimitForPeriod limits periodType)) ∧
  (∀ periodType pt k, names periodType pt → limit_of pt limits = None →
     api_limit_of pt (convertLimits limits) ≠ ApiNumber k ∧
     getLimitForPeriod limits periodType ≠ ApiNumber k).
Proof.
  assert (Hrep : ∀ v, reported v (orNull v)) by (intros [n|]; constructor).
  split; [|split].
  - intros []; apply Hrep.
  - intros periodType pt Hn. rewrite (getLimitForPeriod_names _ _ _ Hn). apply Hrep.
  - intros periodType pt k Hn Hnone.
    rewrite (getLimitForPeriod_names _ _ _ Hn).
    destruct pt; simpl in *; rewrite Hnone; split; discriminate.
Qed.

Lemma unbounded_is_reported_as_null_witness :
  api_limit_of HOURLY (convertLimits (mkRateLimits None (Some 50) (Some 0))) ≠ ApiNumber 0 ∧
  getLimitForPeriod (mkRateLimits None (Some 50) (Some 0)) "hour" ≠ ApiNumber 0.
Proof.
  exact (proj2 (proj2 (unbounded_is_reported_as_null (mkRateLimits None (Some 50) (Some 0))))
           "hour"%string HOURLY 0 names_hour eq_refl).
Defined.

(** ** The primary entitlement *)

Lemma eligible_test config tag :
  bool_decide (tag ≠ NONE_ENTITLEMENT) && bool_decide (is_Some (config_get config tag)) = true
  ↔ eligible config tag.
Proof.
  unfold eligible. rewrite andb_true_iff, !bool_decide_eq_true. reflexivity.
Qed.








(** ** The reported usage *)

(** C9: in the data [getRateLimitsConfigData] returns, the usage of each
    period is the effective limit minus the remaining count of [checkOnly]
    when the limit is finite (the whole limit when the remaining count is
    absent), and 0 when the limit is unbounded. *)
Theorem current_usage_is_limit_minus_remaining {W E} (c : Collaborators W E)
    cfg userId w r1 x1 checkResult x2 :
  getSubscriptionInfo c userId (ext w) = (r1, x1) →
  let limits := getRateLimits c (kept_entitlements r1) in
  checkOnly c userId limits (kept_anchor r1) x1 = (Resolved checkResult, x2) →
  ∃ data,
    fst (getRateLimitsConfigData c cfg userId w) = Returned data ∧
    usage_of (hourly limits) (rem_hourly (remaining checkResult))
             (usage_hourly (currentUsage data)) ∧
    usage_of (daily limits) (rem_daily (remaining checkResult))
             (usage_daily (currentUsage data)) ∧
    usage_of (monthly limits) (rem_monthly (remaining checkResult))
             (usage_monthly (currentUsage data)).
Proof.
  intros Hsrc limits Hcheck.
  rewrite getRateLimitsConfigData_run, Hsrc. simpl. fold limits. rewrite Hcheck.
  eexists. split; [reflexivity|]. simpl.
  assert (Husage : ∀ l r, usage_of l r (usage l r)).
  { intros [n|] r; simpl; [|reflexivity].
    split; [intros ? ->; reflexivity|intros ->; simpl; lia]. }
  repeat split; apply Husage.
Qed.

Lemma current_usage_is_limit_minus_remaining_witness :
  ∃ data,
    fst (getRateLimitsConfigData (Examples.subscribed ["starter"]%string)
           Examples.handler_config "u1" Examples.start) = Returned data ∧
    usage_hourly (currentUsage data) = 2 ∧
    usage_daily (currentUsage data) = 2 ∧
    usage_monthly (currentUsage data) = 2.
Proof.
  destruct (current_usage_is_limit_minus_remaining
              (Examples.subscribed ["starter"]%string)
              Examples.handler_config "u1" Examples.start _ _ _ _ eq_refl eq_refl)
    as (data & Hrun & Hh & Hd & Hm).
  exists data. split; [exact Hrun|].
  split; [|split].
  - exact (proj1 Hh 8 eq_refl).
  - exact (proj1 Hd 48 eq_refl).
  - exact (proj1 Hm 498 eq_refl).
Defined.

(** ** The history entries *)

(** C8: for a period type the API knows, each entry of the response carries
    the [period_start] and [period_end] of the record [getHistory] returned
    at the same position, as ISO-8601 strings, its [request_count] as it
    is, and the user's effective limit of the requested period;
    [totalEntries] is the number of entries of the response. *)
Theorem history_entries_carry_stored_records {W E} (c : Collaborators W E)
    userId periodType pt cap w r1 x1 history x2 :
  names periodType pt →
  getSubscriptionInfo c userId (ext w) = (r1, x1) →
  getHistory c userId pt (kept_anchor r1) (default 100 cap) x1 = (Resolved history, x2) →
  ∃ data,
    fst (getRateLimitHistoryData c userId periodType cap w) = Returned data ∧
    Forall2 (fun entry stored =>
               periodStart entry = toISOString (period_start stored) ∧
               periodEnd entry = toISOString (period_end stored) ∧
               requestCount entry = request_count stored ∧
               limit entry = orNull (limit_of pt (getRateLimits c (kept_entitlements r1))))
            (entries data) (history_entries history) ∧
    totalEntries data = length (entries data).
Proof.
  intros Hn Hsrc Hhist.
  rewrite (getRateLimitHistoryData_run _ _ _ _ _ _ Hn), Hsrc. simpl. rewrite Hhist.
  eexists. split; [reflexivity|]. simpl. split.
  - apply Forall2_fmap_l, Forall_Forall2_diag, Forall_forall.
    intros stored _. simpl. repeat split. apply getLimitForPeriod_names, Hn.
  - rewrite length_map. reflexivity.
Qed.

Lemma history_entries_carry_stored_records_witness :
  ∃ data,
    fst (getRateLimitHistoryData Examples.with_table "u1" "hour" (Some 2) Examples.table_world)
      = Returned data ∧
    periodStart <$> entries data
      = ["2024-01-01T03:00:00.000Z"; "2024-01-01T01:00:00.000Z"]%string ∧
    totalEntries data = 2%nat.
Proof.
  destruct (history_entries_carry_stored_records
              Examples.with_table "u1" "hour" HOURLY (Some 2) Examples.table_world
              _ _ _ _ names_hour eq_refl eq_refl)
    as (data & Hrun & Hentries & Htotal).
  exists data. split; [exact Hrun|].
  apply Forall2_length in Hentries as Hlen.
  destruct (entries data) as [|e1 [|e2 [|e3 rest]]]; try discriminate Hlen.
  split; [|exact Htotal].
  apply Forall2_cons_1 in Hentries as [(Hs1 & _) Hentries].
  apply Forall2_cons_1 in Hentries as [(Hs2 & _) _].
  simpl. rewrite Hs1, Hs2. reflexivity.
Defined.

(** ** The quota resolver *)

Module QuotaResolverFacts.
Import QuotaResolver.

Lemma merge_limit_comm a b : merge_limit a b = merge_limit b a.
Proof. destruct a, b; simpl; try reflexivity. f_equal. lia. Qed.

Lemma merge_limit_assoc a b c :
  merge_limit a (merge_limit b c) = merge_limit (merge_limit a b) c.
Proof. destruct a, b, c; simpl; try reflexivity. f_equal. lia. Qed.

Lemma merge_comm a b : merge a b = merge b a.
Proof.
  unfold merge. f_equal; apply merge_limit_comm.
Qed.

Lemma merge_assoc a b c : merge a (merge b c) = merge (merge a b) c.
Proof.
  unfold merge. simpl. f_equal; apply merge_limit_assoc.
Qed.

Lemma limit_of_merge pt a b :
  limit_of pt (merge a b) = merge_limit (limit_of pt a) (limit_of pt b).
Proof. destruct pt; reflexivity. Qed.

(** The merged tiers do not depend on the order they were gathered in. *)
Lemma merge_all_Permutation g g' : g ≡ₚ g' → merge_all g = merge_all g'.
Proof.
  induction 1 as [|x g g' _ IH|x y g|g g' g'' _ IH1 _ IH2]; simpl.
  - reflexivity.
  - fold (merge_all g) (merge_all g'). rewrite IH. reflexivity.
  - fold (merge_all g). destruct (merge_all g) as [m|]; f_equal.
    + rewrite !merge_assoc, (merge_comm y x). reflexivity.
    + apply merge_comm.
  - congruence.
Qed.

Lemma resolve_Permutation tags tags' config :
  tags ≡ₚ tags' → resolve tags' config = resolve tags config.
Proof.
  intros Hp. unfold resolve, gather.
  rewrite (merge_all_Permutation (omap (config_get config) tags')
                                 (omap (config_get config) tags)); [reflexivity|].
  rewrite Hp. reflexivity.
Qed.

(** One more value of a period keeps the merged value most permissive. *)
Lemma most_permissive_cons v vals r :
  most_permissive vals r → vals ≠ [] → most_permissive (v :: vals) (merge_limit v r).
Proof.
  intros [Hunb Hfin] Hne. split.
  - intros Hin. apply elem_of_cons in Hin as [<-|Hin]; [reflexivity|].
    rewrite (Hunb Hin). destruct v; reflexivity.
  - intros Hnot. apply not_elem_of_cons in Hnot as [Hv Hnot].
    destruct v as [x|]; [|congruence].
    destruct (Hfin Hnot) as (m & -> & Hm & Hmax). simpl.
    exists (Z.max x m). split; [reflexivity|]. split.
    + destruct (Z.max_spec x m) as [[_ ->]|[_ ->]]; [right; exact Hm|left].
    + intros n Hn. apply elem_of_cons in Hn as [[= ->]|Hn]; [lia|].
      specialize (Hmax n Hn). lia.
Qed.

Lemma most_permissive_singleton v : most_permissive [v] v.
Proof.
  split.
  - intros Hin. apply list_elem_of_singleton in Hin. congruence.
  - intros Hnot. destruct v as [x|]; [|exfalso; apply Hnot; left].
    exists x. split; [reflexivity|]. split; [left|].
    intros n Hn. apply list_elem_of_singleton in Hn. injection Hn as ->. lia.
Qed.

Lemma merge_all_most_permissive g :
  g ≠ [] →
  ∃ r, merge_all g = Some r ∧
       ∀ pt, most_permissive (limit_of pt <$> g) (limit_of pt r).
Proof.
  induction g as [|l g IH]; [congruence|]. intros _.
  destruct g as [|l' g].
  - exists l. split; [reflexivity|]. intros pt. apply most_permissive_singleton.
  - destruct IH as (r & Hr & Hmp); [discriminate|].
    exists (merge l r). split.
    + change (merge_all (l :: l' :: g))
        with (Some (match merge_all (l' :: g) with Some m => merge l m | None => l end)).
      rewrite Hr. reflexivity.
    + intros pt. rewrite limit_of_merge.
      change (limit_of pt <$> l :: l' :: g)
        with (limit_of pt l :: (limit_of pt <$> l' :: g)).
      apply most_permissive_cons; [apply Hmp|discriminate].
Qed.

End QuotaResolverFacts.

(** C2: [resolve] merges the limits of the applicable tiers (the tags that
    have an entry in the configuration) period by period: a period that is
    unbounded in some applicable tier is unbounded in the result, otherwise
    the result is the maximum of the tiers' finite limits; without an
    applicable tier the result is the "none" tier. Permuting the tags does
    not change the result. *)
Theorem resolve_is_most_permissive_and_order_independent
    (tags tags' : list string) (config : RateLimitsConfig) :
  tags ≡ₚ tags' →
  QuotaResolver.resolve tags' config = QuotaResolver.resolve tags config ∧
  (QuotaResolver.gather tags config = [] →
     QuotaResolver.resolve tags config = config_get config NONE_ENTITLEMENT) ∧
  (QuotaResolver.gather tags config ≠ [] →
     ∃ r, QuotaResolver.resolve tags config = Some r ∧
          ∀ pt, QuotaResolver.most_permissive
                  (limit_of pt <$> QuotaResolver.gather tags config) (limit_of pt r)).
Proof.
  intros Hp. split; [apply QuotaResolverFacts.resolve_Permutation, Hp|]. split.
  - intros Hnil. unfold QuotaResolver.resolve. rewrite Hnil. reflexivity.
  - intros Hne.
    destruct (QuotaResolverFacts.merge_all_most_permissive _ Hne) as (r & Hr & Hmp).
    exists r. split; [|exact Hmp]. unfold QuotaResolver.resolve. rewrite Hr. reflexivity.
Qed.

(** The scenario of the spec: "starter" and "pro" together, in either
    order, resolve to unbounded limits. *)
Lemma resolve_is_most_permissive_and_order_independent_witness :
  QuotaResolver.resolve ["pro"; "starter"]%string Examples.tiers_config
    = QuotaResolver.resolve ["starter"; "pro"]%string Examples.tiers_config ∧
  QuotaResolver.resolve ["starter"; "pro"]%string Examples.tiers_config
    = Some {| hourly := None; daily := None; monthly := None |}.
Proof.
  split; [|reflexivity].
  exact (proj1 (resolve_is_most_permissive_and_order_independent
                  ["starter"; "pro"]%string ["pro"; "starter"]%string Examples.tiers_config
                  (Permutation_swap _ _ _))).
Defined.

(** ** The history of the counter store *)

Module CounterStoreFacts.
Import CounterStore.

Global Instance not_earlier_total : Total not_earlier.
Proof. intros a b. unfold not_earlier. lia. Qed.

Global Instance not_earlier_trans : Transitive not_earlier.
Proof. intros a b c. unfold not_earlier. lia. Qed.

Lemma StronglySorted_lookup_lt {A} (R : relation A) l i j a b :
  StronglySorted R l → (i < j)%nat → l !! i = Some a → l !! j = Some b → R a b.
Proof.
  intros Hs. revert i j. induction Hs as [|x l Hs IH Hall]; intros i j Hlt Hi Hj.
  - discriminate.
  - destruct j as [|j]; [lia|]. simpl in Hj. destruct i as [|i]; simpl in Hi.
    + injection Hi as ->. rewrite Forall_forall in Hall.
      apply Hall. eapply list_elem_of_lookup_2, Hj.
    + apply (IH i j); [lia|assumption|assumption].
Qed.

Lemma history_rows_sorted userId pt n t :
  StronglySorted not_earlier (history_rows userId pt n t).
Proof.
  unfold history_rows.
  apply (StronglySorted_app_1_l _ _
           (drop (Z.to_nat n) (merge_sort not_earlier (filter (of_user userId pt) t)))).
  rewrite take_drop. apply StronglySorted_merge_sort; apply _.
Qed.

(** No synthetic rows: what is listed is stored, for that user and period. *)
Lemma history_rows_stored userId pt n t r :
  r ∈ history_rows userId pt n t → r ∈ t ∧ row_userId r = userId ∧ row_periodType r = pt.
Proof.
  unfold history_rows. intros Hin.
  apply subseteq_take in Hin. rewrite merge_sort_Permutation in Hin.
  apply list_elem_of_filter in Hin as [[Hu Hp] Hin]. auto.
Qed.

Lemma history_rows_sublist userId pt n t :
  ∃ l, history_rows userId pt n t `sublist_of` l ∧ l ≡ₚ filter (of_user userId pt) t.
Proof.
  eexists. split; [apply sublist_take|apply merge_sort_Permutation].
Qed.

Lemma history_rows_starts_NoDup userId pt n t :
  unique_keys t → NoDup (row_periodStart <$> history_rows userId pt n t).
Proof.
  intros Huniq.
  destruct (history_rows_sublist userId pt n t) as (l & Hsub & Hperm).
  eapply sublist_NoDup; [|apply fmap_sublist, Hsub]. rewrite Hperm.
  apply (NoDup_fmap_1 (fun s => (userId, pt, s))).
  rewrite <- list_fmap_compose.
  rewrite (list_fmap_ext _ key (filter (of_user userId pt) t)).
  - eapply sublist_NoDup; [exact Huniq|apply fmap_sublist, sublist_filter].
  - intros i r Hr. apply list_elem_of_lookup_2, list_elem_of_filter in Hr as [[Hu Hp] _].
    unfold key. simpl. rewrite Hu, Hp. reflexivity.
Qed.

Lemma history_rows_decreasing userId pt n t :
  unique_keys t → strictly_decreasing (history_rows userId pt n t).
Proof.
  intros Huniq i j a b Hlt Hi Hj.
  pose proof (StronglySorted_lookup_lt _ _ _ _ _ _
                (history_rows_sorted userId pt n t) Hlt Hi Hj) as Hle.
  unfold not_earlier in Hle.
  assert (row_periodStart a ≠ row_periodStart b); [|lia].
  intros Heq.
  pose proof (history_rows_starts_NoDup userId pt n t Huniq) as Hnd.
  assert (i = j); [|lia].
  apply (NoDup_lookup _ i j (row_periodStart a) Hnd).
  - rewrite list_lookup_fmap, Hi. reflexivity.
  - rewrite list_lookup_fmap, Hj, Heq. reflexivity.
Qed.

Lemma history_rows_length userId pt n t :
  Z.of_nat (length (history_rows userId pt n t)) <= Z.max 0 n.
Proof. unfold history_rows. rewrite length_take. lia. Qed.

End CounterStoreFacts.

(** C7: over a counter table that keeps its uniqueness constraint, and for
    a period type the API knows, [getRateLimitHistoryData] returns entries
    that stand, one for one and in order, for rows of the table of that
    user and period type (no entry without a stored row); the window
    starts of these rows are strictly decreasing; and there are at most
    [limit] entries for a limit of 0 or more, at most 100 when the limit is
    omitted. Whether the entitlement source answers or fails makes no
    difference. *)
Theorem history_is_ordered_capped_and_stored {E} windowEnd
    (rc : string -> Result E SubscriptionInfo) resolver check
    userId periodType pt cap (w : World CounterStore.Table E) :
  CounterStore.unique_keys (ext w) →
  names periodType pt →
  ∃ data rows,
    fst (getRateLimitHistoryData (over_table windowEnd rc resolver check)
           userId periodType cap w) = Returned data ∧
    Forall2 (fun entry row =>
               periodStart entry = toISOString (CounterStore.row_periodStart row) ∧
               requestCount entry = CounterStore.row_requestCount row)
            (entries data) rows ∧
    CounterStore.strictly_decreasing rows ∧
    Z.of_nat (length (entries data)) <= Z.max 0 (default 100 cap) ∧
    Forall (fun row => row ∈ ext w ∧ CounterStore.row_userId row = userId ∧
                       CounterStore.row_periodType row = pt) rows.
Proof.
  intros Huniq Hn.
  rewrite (getRateLimitHistoryData_run _ _ _ _ _ _ Hn). simpl.
  eexists. exists (CounterStore.history_rows userId pt (default 100 cap) (ext w)).
  split; [reflexivity|]. simpl. split; [|split; [|split]].
  - rewrite <- list_fmap_compose.
    apply Forall2_fmap_l, Forall_Forall2_diag, Forall_forall.
    intros row _. simpl. split; reflexivity.
  - apply CounterStoreFacts.history_rows_decreasing, Huniq.
  - rewrite !length_map. apply CounterStoreFacts.history_rows_length.
  - apply Forall_forall. intros row Hin.
    eapply CounterStoreFacts.history_rows_stored, Hin.
Qed.

Lemma history_is_ordered_capped_and_stored_witness :
  ∃ data rows,
    fst (getRateLimitHistoryData Examples.with_table "u1" "hour" (Some 2) Examples.table_world)
      = Returned data ∧
    Forall2 (fun entry row =>
               periodStart entry = toISOString (CounterStore.row_periodStart row) ∧
               requestCount entry = CounterStore.row_requestCount row)
            (entries data) rows ∧
    CounterStore.strictly_decreasing rows ∧
    Z.of_nat (length (entries data)) <= 2 ∧
    Forall (fun row => row ∈ Examples.table ∧ CounterStore.row_userId row = "u1"%string ∧
                       CounterStore.row_periodType row = HOURLY) rows.
Proof.
  refine (history_is_ordered_capped_and_stored
            Examples.windowEnd (fun _ => Failed Examples.server_error)
            Examples.resolver (Examples.check_used 0)
            "u1" "hour" HOURLY (Some 2) Examples.table_world _ names_hour).
  unfold CounterStore.unique_keys. apply (bool_decide_unpack _). vm_compute. exact I.
Defined.


(** * Further properties of the handler *)

Lemma getRateLimitHistoryData_invalid_run {W E} (c : Collaborators W E) userId p cap w :
  p ≠ "hour"%string → p ≠ "day"%string → p ≠ "month"%string →
  getRateLimitHistoryData c userId p cap w
    = (Threw (JsError ("Invalid period type: " +:+ p)), w).
Proof.
  intros Hh Hd Hm. unfold getRateLimitHistoryData. unfold Comp.bind at 1.
  rewrite convertPeriodType_invalid by assumption. reflexivity.
Qed.

(** ** The tiers of the response *)

(** X1: the [tiers] of any data [getRateLimitsConfigData] returns list the
    entries of the configuration, one for one and in their order: the key,
    its display name, and its limits in API form; the user and the answers
    of the collaborators play no part in them. *)
Theorem tiers_mirror_the_configuration {W E} (c : Collaborators W E) cfg userId w data :
  fst (getRateLimitsConfigData c cfg userId w) = Returned data →
  Forall2 (fun tier entry =>
             entitlement tier = fst entry ∧
             displayName tier = getDisplayName cfg (fst entry) ∧
             limits tier = convertLimits (snd entry))
          (tiers data) (rateLimitsConfig cfg).
Proof.
  rewrite getRateLimitsConfigData_run.
  destruct (getSubscriptionInfo c userId (ext w)) as [r1 x1]. simpl.
  destruct (checkOnly c userId _ _ x1) as [[cr|e] x2]; simpl; [|discriminate].
  intros [= <-]. simpl.
  apply Forall2_fmap_l, Forall_Forall2_diag, Forall_forall.
  intros [k l] _. simpl. auto.
Qed.

Lemma tiers_mirror_the_configuration_witness :
  ∃ data,
    fst (getRateLimitsConfigData Examples.source_down Examples.handler_config "u1" Examples.start)
      = Returned data ∧
    Forall2 (fun tier entry =>
               entitlement tier = fst entry ∧
               displayName tier = getDisplayName Examples.handler_config (fst entry) ∧
               limits tier = convertLimits (snd entry))
            (tiers data) Examples.tiers_config.
Proof.
  eexists. split; [reflexivity|].
  exact (tiers_mirror_the_configuration
           Examples.source_down Examples.handler_config "u1" Examples.start _ eq_refl).
Defined.

(** ** Display names *)

Lemma displayNames_lookup cfg k :
  displayNames cfg !! k =
  match default ∅ (entitlementDisplayNames cfg) !! k with
  | Some name => Some name
  | None => DEFAULT_DISPLAY_NAMES !! k
  end.
Proof.
  unfold displayNames. rewrite lookup_union.
  destruct (default ∅ (entitlementDisplayNames cfg) !! k) as [name|];
    destruct (DEFAULT_DISPLAY_NAMES !! k); reflexivity.
Qed.

(** X2: a non-empty display name given in the configuration is the display
    name of its entitlement, whether or not a default name exists for it. *)
Theorem configured_display_name_wins cfg custom k name :
  entitlementDisplayNames cfg = Some custom →
  custom !! k = Some name →
  name ≠ ""%string →
  getDisplayName cfg k = name.
Proof.
  intros Hcfg Hk Hne. unfold getDisplayName.
  rewrite displayNames_lookup, Hcfg. simpl. rewrite Hk.
  case_decide; [contradiction|reflexivity].
Qed.

Lemma configured_display_name_wins_witness :
  getDisplayName (named_config {["none" := "Basic"]}%string) "none" = "Basic"%string.
Proof.
  exact (configured_display_name_wins
           (named_config {["none" := "Basic"]}%string) _ "none" "Basic"
           eq_refl eq_refl ltac:(discriminate)).
Defined.





(** X5: the display name of a non-empty entitlement is never empty. *)
Theorem display_name_is_not_empty cfg k :
  k ≠ ""%string → getDisplayName cfg k ≠ ""%string.
Proof.
  intros Hk. unfold getDisplayName.
  assert (Hcap : capitalize k ≠ ""%string).
  { destruct k; [contradiction|discriminate]. }
  destruct (displayNames cfg !! k) as [name|]; [|exact Hcap].
  case_decide; assumption.
Qed.

Lemma display_name_is_not_empty_witness :
  getDisplayName (named_config {["gold" := ""]}%string) "gold" ≠ ""%string.
Proof.
  exact (display_name_is_not_empty (named_config {["gold" := ""]}%string) "gold"
           ltac:(discriminate)).
Defined.

(** ** Period types *)

(** X6: [convertPeriodType] returns an internal period type exactly for the
    three names of the API, it touches nothing of the world, and different
    names give different internal types: no two spellings share a period. *)
Theorem convertPeriodType_accepts_exactly_the_api_names {W E} periodType (w : World W E) :
  (∀ pt, fst (convertPeriodType periodType w) = Returned pt ↔ names periodType pt) ∧
  snd (convertPeriodType periodType w) = w ∧
  (∀ other pt, names periodType pt → names other pt → other = periodType).
Proof.
  split; [|split].
  - intros pt. split.
    + unfold convertPeriodType.
      repeat (case_decide; [subst periodType; intros [= <-]; constructor|]).
      discriminate.
    + intros Hn. rewrite (convertPeriodType_names _ _ _ Hn). reflexivity.
  - unfold convertPeriodType. repeat (case_decide; [reflexivity|]). reflexivity.
  - intros other pt [] Hother; inversion Hother; reflexivity.
Qed.

Lemma convertPeriodType_accepts_exactly_the_api_names_witness :
  names "day" DAILY ∧ ¬ names "Day" DAILY.
Proof.
  pose proof (convertPeriodType_accepts_exactly_the_api_names
                (W:=unit) (E:=string) "day" Examples.start) as (Hday & _ & _).
  pose proof (convertPeriodType_accepts_exactly_the_api_names
                (W:=unit) (E:=string) "Day" Examples.start) as (HDay & _ & _).
  split.
  - exact (proj1 (Hday DAILY) eq_refl).
  - intros Hn. apply (proj2 (HDay DAILY)) in Hn. discriminate Hn.
Defined.

(** X7: for a period type that is none of "hour", "day" and "month",
    [getLimitForPeriod] answers null whatever the limits are, finite ones
    included. *)
Theorem unknown_period_has_null_limit limits periodType :
  periodType ≠ "hour"%string → periodType ≠ "day"%string → periodType ≠ "month"%string →
  getLimitForPeriod limits periodType = ApiNull.
Proof.
  intros Hh Hd Hm. unfold getLimitForPeriod.
  repeat (case_decide; [contradiction|]). reflexivity.
Qed.

Lemma unknown_period_has_null_limit_witness :
  getLimitForPeriod (mkRateLimits (Some 5) (Some 20) (Some 100)) "week" = ApiNull.
Proof.
  exact (unknown_period_has_null_limit (mkRateLimits (Some 5) (Some 20) (Some 100)) "week"
           ltac:(discriminate) ltac:(discriminate) ltac:(discriminate)).
Defined.

(** ** The API form of the limits *)

(** X8: [convertLimits] loses nothing: limits with the same API form are
    the same limits. *)
Theorem convertLimits_is_injective (a b : RateLimits) :
  convertLimits a = convertLimits b → a = b.
Proof.
  assert (Hinj : ∀ x y, orNull x = orNull y → x = y).
  { intros [x|] [y|]; simpl; congruence. }
  destruct a as [ha da ma], b as [hb db mb]. unfold convertLimits. simpl.
  intros [= Hh Hd Hm]. apply Hinj in Hh, Hd, Hm. congruence.
Qed.

Lemma convertLimits_is_injective_witness :
  Examples.resolver ["pro"; "starter"]%string = Examples.unlimited.
Proof.
  exact (convertLimits_is_injective
           (Examples.resolver ["pro"; "starter"]%string) Examples.unlimited eq_refl).
Defined.

(** ** More on the primary entitlement *)

Lemma getPrimaryEntitlement_skip config tag rest :
  ¬ eligible config tag →
  getPrimaryEntitlement config (tag :: rest) = getPrimaryEntitlement config rest.
Proof.
  intros Hno. simpl.
  destruct (bool_decide (tag ≠ NONE_ENTITLEMENT) &&
            bool_decide (is_Some (config_get config tag))) eqn:Htest; [|reflexivity].
  exfalso. apply Hno, eligible_test, Htest.
Qed.

Lemma getPrimaryEntitlement_take config tag rest :
  eligible config tag → getPrimaryEntitlement config (tag :: rest) = tag.
Proof.
  intros Hel. simpl. apply eligible_test in Hel. rewrite Hel. reflexivity.
Qed.




(** X11: [getPrimaryEntitlement] looks only at which of the tags have an
    entry in the configuration, not at the limits of the entries: two
    configurations with entries for the same tags give the same answer. *)
Theorem getPrimaryEntitlement_depends_on_keys_only config config' tags :
  (∀ tag, tag ∈ tags →
          (is_Some (config_get config tag) ↔ is_Some (config_get config' tag))) →
  getPrimaryEntitlement config tags = getPrimaryEntitlement config' tags.
Proof.
  induction tags as [|tag rest IH]; intros Hkeys; [reflexivity|].
  assert (Hrest : getPrimaryEntitlement config rest = getPrimaryEntitlement config' rest).
  { apply IH. intros t Ht. apply Hkeys. right. exact Ht. }
  assert (Hsame : eligible config tag ↔ eligible config' tag).
  { unfold eligible. rewrite (Hkeys tag) by left. reflexivity. }
  destruct (decide (eligible config tag)) as [Hel|Hno].
  - rewrite !getPrimaryEntitlement_take; [reflexivity|apply Hsame, Hel|exact Hel].
  - rewrite !getPrimaryEntitlement_skip; [exact Hrest|rewrite <- Hsame; exact Hno|exact Hno].
Qed.

Lemma getPrimaryEntitlement_depends_on_keys_only_witness :
  getPrimaryEntitlement Examples.tiers_config ["gold"; "pro"; "starter"]%string
    = getPrimaryEntitlement
        [("starter"%string, Examples.unlimited);
         ("pro"%string, mkRateLimits (Some 1) (Some 1) (Some 1))]
        ["gold"; "pro"; "starter"]%string.
Proof.
  apply getPrimaryEntitlement_depends_on_keys_only.
  intros tag Hin. apply list_elem_of_In in Hin. simpl in Hin.
  destruct Hin as [<-|[<-|[<-|[]]]]; simpl; split; intros H; try exact H;
    try (eexists; reflexivity).
Defined.

(** ** The calls a handler makes *)

(** X12: whatever the collaborators answer, [getRateLimitsConfigData] makes
    one call of the entitlement source and then one call of [checkOnly],
    for the same user, with the limits resolved from the entitlements it
    kept and with the subscription start it kept; a failure of the source
    is logged in between. It makes no other call, and it leaves the state
    behind the collaborators as [checkOnly] left it. *)
Theorem getRateLimitsConfigData_call_sequence {W E} (c : Collaborators W E) cfg userId w r1 x1 :
  getSubscriptionInfo c userId (ext w) = (r1, x1) →
  let limits := getRateLimits c (kept_entitlements r1) in
  let out := getRateLimitsConfigData c cfg userId w in
  trace (snd out)
    = trace w ++ [GetSubscriptionInfoCall userId]
        ++ logged "RevenueCat error, using 'none' entitlement:" r1
        ++ [CheckOnlyCall userId limits (kept_anchor r1)] ∧
  ext (snd out) = snd (checkOnly c userId limits (kept_anchor r1) x1).
Proof.
  intros Hsrc limits out. subst out.
  rewrite getRateLimitsConfigData_run, Hsrc. simpl. fold limits.
  destruct (checkOnly c userId limits (kept_anchor r1) x1) as [[cr|e] x2]; simpl;
    rewrite <- !app_assoc; split; reflexivity.
Qed.

Lemma getRateLimitsConfigData_call_sequence_witness :
  trace (snd (getRateLimitsConfigData Examples.storage_down Examples.handler_config
                "u1" Examples.start))
    = [GetSubscriptionInfoCall "u1";
       CheckOnlyCall "u1" (mkRateLimits (Some 10) (Some 50) (Some 500)) None].
Proof.
  exact (proj1 (getRateLimitsConfigData_call_sequence
                  Examples.storage_down Examples.handler_config "u1" Examples.start
                  _ _ eq_refl)).
Defined.

(** X13: for a period type of the API, [getRateLimitHistoryData] makes one
    call of the entitlement source and then one call of [getHistory], for
    the same user, with the internal period type, the subscription start it
    kept, and the caller's limit as it is (no check, no clamping), 100 when
    the caller gave none. *)
Theorem getRateLimitHistoryData_call_sequence {W E} (c : Collaborators W E)
    userId periodType pt cap w r1 x1 :
  names periodType pt →
  getSubscriptionInfo c userId (ext w) = (r1, x1) →
  let out := getRateLimitHistoryData c userId periodType cap w in
  trace (snd out)
    = trace w ++ [GetSubscriptionInfoCall userId]
        ++ logged "RevenueCat error:" r1
        ++ [GetHistoryCall userId pt (kept_anchor r1) (default 100 cap)] ∧
  ext (snd out) = snd (getHistory c userId pt (kept_anchor r1) (default 100 cap) x1).
Proof.
  intros Hn Hsrc out. subst out.
  rewrite (getRateLimitHistoryData_run _ _ _ _ _ _ Hn), Hsrc. simpl.
  destruct (getHistory c userId pt (kept_anchor r1) (default 100 cap) x1) as [[h|e] x2]; simpl;
    rewrite <- !app_assoc; split; reflexivity.
Qed.

Lemma getRateLimitHistoryData_call_sequence_witness :
  trace (snd (getRateLimitHistoryData Examples.with_table "u1" "month" (Some (-3))
                Examples.table_world))
    = [GetSubscriptionInfoCall "u1";
       ConsoleError "RevenueCat error:" (Rejected Examples.server_error);
       GetHistoryCall "u1" MONTHLY None (-3)].
Proof.
  exact (proj1 (getRateLimitHistoryData_call_sequence
                  Examples.with_table "u1" "month" MONTHLY (Some (-3)) Examples.table_world
                  _ _ names_month eq_refl)).
Defined.

(** ** What the handlers throw *)

(** X14: the only thing [getRateLimitsConfigData] ever throws is the value
    [checkOnly] rejected with: never an error of its own, never the error
    of the entitlement source. *)
Theorem getRateLimitsConfigData_throws_only_for_checkOnly {W E} (c : Collaborators W E)
    cfg userId w r1 x1 t :
  getSubscriptionInfo c userId (ext w) = (r1, x1) →
  fst (getRateLimitsConfigData c cfg userId w) = Threw t →
  ∃ e x2, t = Rejected e ∧
          checkOnly c userId (getRateLimits c (kept_entitlements r1)) (kept_anchor r1) x1
            = (Failed e, x2).
Proof.
  intros Hsrc. rewrite getRateLimitsConfigData_run, Hsrc. simpl.
  destruct (checkOnly c userId _ _ x1) as [[cr|e] x2]; simpl; [discriminate|].
  intros [= <-]. eauto.
Qed.

Lemma getRateLimitsConfigData_throws_only_for_checkOnly_witness :
  ∃ e x2,
    Rejected Examples.database_error = Rejected e ∧
    checkOnly Examples.storage_down "u1"
              (getRateLimits Examples.storage_down ["starter"%string]) None tt
      = (Failed e, x2).
Proof.
  exact (getRateLimitsConfigData_throws_only_for_checkOnly
           Examples.storage_down Examples.handler_config "u1" Examples.start
           _ _ _ eq_refl eq_refl).
Defined.



(** X16: a failing entitlement source and one that finds no subscription
    are answered alike: when [getSubscriptionInfo] fails, each handler
    returns or throws exactly what it does with a source that reports the
    "none" entitlement and no start date. *)
Theorem source_failure_looks_like_no_subscription {W E} (c : Collaborators W E)
    cfg userId w e x1 :
  getSubscriptionInfo c userId (ext w) = (Failed e, x1) →
  fst (getRateLimitsConfigData c cfg userId w)
    = fst (getRateLimitsConfigData (without_subscription c) cfg userId w) ∧
  (∀ periodType cap,
     fst (getRateLimitHistoryData c userId periodType cap w)
       = fst (getRateLimitHistoryData (without_subscription c) userId periodType cap w)).
Proof.
  intros Hsrc. split.
  - rewrite !getRateLimitsConfigData_run. simpl. rewrite Hsrc. simpl.
    destruct (checkOnly c userId _ None x1) as [[cr|e'] x2]; reflexivity.
  - intros periodType cap.
    destruct (decide (periodType = "hour"%string)) as [->|Hh];
      [|destruct (decide (periodType = "day"%string)) as [->|Hd];
        [|destruct (decide (periodType = "month"%string)) as [->|Hm]]].
    1-3: (erewrite !getRateLimitHistoryData_run by constructor; simpl; rewrite Hsrc; simpl;
          match goal with
          | |- context [getHistory ?col ?u ?pt ?a ?l ?x] =>
              destruct (getHistory col u pt a l x) as [[h|e'] x2]
          end; reflexivity).
    rewrite !getRateLimitHistoryData_invalid_run by assumption. reflexivity.
Qed.

Lemma source_failure_looks_like_no_subscription_witness :
  fst (getRateLimitsConfigData Examples.source_down Examples.handler_config "u1" Examples.start)
    = fst (getRateLimitsConfigData (without_subscription Examples.source_down)
             Examples.handler_config "u1" Examples.start).
Proof.
  exact (proj1 (source_failure_looks_like_no_subscription
                  Examples.source_down Examples.handler_config "u1" Examples.start
                  Examples.server_error tt eq_refl)).
Defined.

(** ** Usage, limits and entries of the responses *)

(** X17: for a period with a finite limit, the reported usage and the
    remaining count of [checkOnly] (0 when absent) add up to the limit. The
    handler clamps nothing: the usage lies between 0 and the limit exactly
    when the remaining count does. *)
Theorem usage_and_remaining_add_up {W E} (c : Collaborators W E)
    cfg userId w r1 x1 checkResult x2 data pt n :
  getSubscriptionInfo c userId (ext w) = (r1, x1) →
  let limits := getRateLimits c (kept_entitlements r1) in
  checkOnly c userId limits (kept_anchor r1) x1 = (Resolved checkResult, x2) →
  fst (getRateLimitsConfigData c cfg userId w) = Returned data →
  limit_of pt limits = Some n →
  let used := usage_at pt (currentUsage data) in
  let left := default 0 (remaining_at pt (remaining checkResult)) in
  used + left = n ∧ (0 <= used <= n ↔ 0 <= left <= n).
Proof.
  intros Hsrc limits Hcheck.
  rewrite getRateLimitsConfigData_run, Hsrc. simpl. fold limits. rewrite Hcheck. simpl.
  intros [= <-] Hlim. cbv zeta.
  destruct pt; simpl in *; rewrite Hlim; unfold usage, orZero; lia.
Qed.

Lemma usage_and_remaining_add_up_witness :
  ∃ data,
    fst (getRateLimitsConfigData (Examples.subscribed ["starter"]%string)
           Examples.handler_config "u1" Examples.start) = Returned data ∧
    usage_at DAILY (currentUsage data) + 48 = 50.
Proof.
  eexists. split; [reflexivity|].
  exact (proj1 (usage_and_remaining_add_up
                  (Examples.subscribed ["starter"]%string)
                  Examples.handler_config "u1" Examples.start
                  _ _ _ _ _ DAILY 50 eq_refl eq_refl eq_refl eq_refl)).
Defined.

(** X18: the [currentLimits] of the data [getRateLimitsConfigData] returns
    are the API form of the very limits its last call, the one of
    [checkOnly], was made with. *)
Theorem currentLimits_are_the_checked_limits {W E} (c : Collaborators W E)
    cfg userId w data :
  let out := getRateLimitsConfigData c cfg userId w in
  fst out = Returned data →
  ∃ checked anchor,
    last (trace (snd out)) = Some (CheckOnlyCall userId checked anchor) ∧
    currentLimits data = convertLimits checked.
Proof.
  intros out. subst out. rewrite getRateLimitsConfigData_run.
  destruct (getSubscriptionInfo c userId (ext w)) as [r1 x1]. simpl.
  destruct (checkOnly c userId _ _ x1) as [[cr|e] x2]; simpl; [|discriminate].
  intros [= <-]. eexists _, _. split; [apply last_snoc|reflexivity].
Qed.

Lemma currentLimits_are_the_checked_limits_witness :
  ∃ data checked anchor,
    fst (getRateLimitsConfigData (Examples.subscribed ["starter"; "pro"]%string)
           Examples.handler_config "u1" Examples.start) = Returned data ∧
    last (trace (snd (getRateLimitsConfigData (Examples.subscribed ["starter"; "pro"]%string)
                        Examples.handler_config "u1" Examples.start)))
      = Some (CheckOnlyCall "u1" checked anchor) ∧
    currentLimits data = convertLimits checked.
Proof.
  eexists.
  destruct (currentLimits_are_the_checked_limits
              (Examples.subscribed ["starter"; "pro"]%string)
              Examples.handler_config "u1" Examples.start _ eq_refl)
    as (checked & anchor & Hlast & Hlimits).
  exists checked, anchor. split; [reflexivity|]. split; [exact Hlast|exact Hlimits].
Defined.

(** X19: a history response names the period type it was asked for, that
    period type is one of the API, and all its entries carry one and the
    same limit: the user's limit of now, whatever the age of the window. *)
Theorem history_entries_share_one_limit {W E} (c : Collaborators W E)
    userId asked cap w data :
  fst (getRateLimitHistoryData c userId asked cap w) = Returned data →
  periodType data = asked ∧
  (∃ pt, names asked pt) ∧
  (∀ e1 e2, e1 ∈ entries data → e2 ∈ entries data → limit e1 = limit e2).
Proof.
  destruct (decide (asked = "hour"%string)) as [->|Hh];
    [|destruct (decide (asked = "day"%string)) as [->|Hd];
      [|destruct (decide (asked = "month"%string)) as [->|Hm]]].
  1-3: (erewrite getRateLimitHistoryData_run by constructor;
        match goal with
        | |- context [getSubscriptionInfo ?col ?u ?x] =>
            destruct (getSubscriptionInfo col u x) as [r1 x1]
        end; simpl;
        match goal with
        | |- context [getHistory ?col ?u ?pt ?a ?l ?x] =>
            destruct (getHistory col u pt a l x) as [[h|e] x2]
        end; simpl; [|discriminate];
        intros [= <-]; simpl; split; [reflexivity|];
        split; [eexists; constructor|];
        intros e1 e2 H1 H2;
        apply list_elem_of_fmap in H1 as (s1 & -> & _);
        apply list_elem_of_fmap in H2 as (s2 & -> & _); reflexivity).
  rewrite getRateLimitHistoryData_invalid_run by assumption. discriminate.
Qed.

Lemma history_entries_share_one_limit_witness :
  ∃ data,
    fst (getRateLimitHistoryData Examples.with_table "u1" "hour" None Examples.table_world)
      = Returned data ∧
    periodType data = "hour"%string ∧
    (∀ e1 e2, e1 ∈ entries data → e2 ∈ entries data → limit e1 = limit e2).
Proof.
  eexists. split; [reflexivity|].
  pose proof (history_entries_share_one_limit
                Examples.with_table "u1" "hour" None Examples.table_world _ eq_refl)
    as (Hp & _ & Hl).
  split; [exact Hp|exact Hl].
Defined.
